(** * bgzfiltra: the aggregation core of [src/bgzfiltra/main.py]

    The program pulls the bugs of every configured product from Bugzilla,
    derives a fixed set of counts from them and writes each count as a
    timestamped row to QuestDB, forever, sleeping between rounds.

    The development embeds the Python code shallowly:
    - Python [str] values are [string]; the few [str] methods the program
      calls ([in], [count], [[:2]], [lower]) are in [PyStr];
    - Python [dict] values are insertion-ordered association lists with
      unique keys ([Dict]), because [dict.items()] yields the entries in
      insertion order and the rows are written in that order;
    - the database is the log of the rows handed to it, oldest first;
    - the clock and the database form the state threaded through [main]. *)

From Stdlib Require Import List String Ascii Bool Arith Lia ZArith Permutation.
Import ListNotations.
Open Scope string_scope.
Open Scope list_scope.

(** ** Python strings *)

Module PyStr.

(** [s.startswith(sub)]: the Standard Library's [prefix]. *)
Definition startswith (sub s : string) : bool := prefix sub s.

(** [sub in s]: some suffix of [s] starts with [sub]. *)
Fixpoint contains (sub s : string) : bool :=
  startswith sub s ||
  match s with
  | EmptyString => false
  | String _ s' => contains sub s'
  end.

(** [s.count(sub)] scans left to right and, after a match, resumes behind
    the matched text: it counts non-overlapping occurrences.  [skip] is the
    number of characters of the last match still to be stepped over. *)
Fixpoint count_from (sub : string) (skip : nat) (s : string) : nat :=
  match s with
  | EmptyString =>
      match skip with
      | O => if startswith sub EmptyString then 1 else 0
      | S _ => 0
      end
  | String _ s' =>
      match skip with
      | S k => count_from sub k s'
      | O =>
          if startswith sub s
          then S (count_from sub (Nat.pred (String.length sub)) s')
          else count_from sub 0 s'
      end
  end.

Definition count (sub s : string) : nat := count_from sub 0 s.

(** [s[:n]]: the first [n] characters, or all of [s] when it is shorter;
    slicing never raises. *)
Fixpoint slice_to (n : nat) (s : string) : string :=
  match n, s with
  | O, _ => EmptyString
  | S _, EmptyString => EmptyString
  | S n', String c s' => String c (slice_to n' s')
  end.

(** [c.lower()] on one character.  The characters of [ascii] are read as
    the code points below 256: [A]..[Z] and the accented capitals
    U+00C0..U+00DE (the sign U+00D7 apart) move up by 32, every other
    character is its own lower case. *)
Definition lower_ascii (c : ascii) : ascii :=
  let n := nat_of_ascii c in
  if Nat.leb 65 n && Nat.leb n 90 then ascii_of_nat (n + 32)
  else if Nat.leb 192 n && Nat.leb n 222 && negb (Nat.eqb n 215)
  then ascii_of_nat (n + 32)
  else c.

Fixpoint lower (s : string) : string :=
  match s with
  | EmptyString => EmptyString
  | String c s' => String (lower_ascii c) (lower s')
  end.

(** The number of positions of [s] at which [sub] occurs, overlapping or
    not: the reference notion of an occurrence count. *)
Fixpoint occurrences (sub s : string) : nat :=
  (if startswith sub s then 1 else 0) +
  match s with
  | EmptyString => 0
  | String _ s' => occurrences sub s'
  end.

End PyStr.

(** ** Python dictionaries with [str] keys *)

Module Dict.
Section Dict.
Context {V : Type}.

Definition t := list (string * V).

Definition empty : t := [].

(** [d.get(k)], [None] when the key is absent. *)
Fixpoint get (k : string) (d : t) : option V :=
  match d with
  | [] => None
  | (k', v) :: d' => if String.eqb k' k then Some v else get k d'
  end.

(** [k in d] *)
Definition mem (k : string) (d : t) : bool :=
  match get k d with Some _ => true | None => false end.

(** [d.get(k, default)] *)
Definition get_default (k : string) (default : V) (d : t) : V :=
  match get k d with Some v => v | None => default end.

(** [d[k] = v]: an existing key keeps its place, a new one goes last. *)
Fixpoint set (k : string) (v : V) (d : t) : t :=
  match d with
  | [] => [(k, v)]
  | (k', v') :: d' =>
      if String.eqb k' k then (k', v) :: d' else (k', v') :: set k v d'
  end.

(** [d[k] = f(d[k])], the shape of [d[k].append(x)] and [d[k] += n].
    Python raises [KeyError] when [k] is absent; every use below comes
    after the key was put in, see [group_step_has_key] and
    [count_l3_cases_keys]. *)
Definition update (k : string) (f : V -> V) (d : t) : t :=
  match get k d with Some v => set k (f v) d | None => d end.

(** [d.items()], in insertion order. *)
Definition items (d : t) : list (string * V) := d.

Definition keys (d : t) : list string := map fst d.

End Dict.
Arguments t : clear implicits.
End Dict.

(** ** Data model *)

(** A value stored in a flag of a bug: the Bugzilla API delivers strings,
    numbers, booleans and nulls. *)
Inductive pyval : Type :=
| PStr (s : string)
| PInt (z : Z)
| PBool (b : bool)
| PNone.

(** [v == s] for a [str] literal [s]: only an equal string compares equal. *)
Definition eq_str (v : pyval) (s : string) : bool :=
  match v with
  | PStr s' => String.eqb s' s
  | _ => false
  end.

(** The attributes of [bugzilla.bug.Bug] the program reads. *)
Record Bug : Type := mkBug {
  bug_id : Z;
  status : string;
  component : string;
  assigned_to : string;
  priority : string;
  whiteboard : string;
  flags : list (Dict.t pyval)
}.

(** Modelled from the spec: the persistence collaborator [persistence.QuestDB],
    one insert operation per dimension, each taking
    [(product, key, count, timestamp)] and returning nothing.  A row records
    which operation was called and with what; the database is the list of the
    rows received, oldest first. *)
Inductive table : Type :=
| Status | Component | L3 | L3Cases | Priority | Assigned.

Record Row : Type := mkRow {
  row_table : table;
  row_product : string;
  row_key : string;
  row_count : nat;
  row_timestamp : Z
}.

Module QuestDB.
Definition t := list Row.

Definition insert (tb : table) (product key : string) (count : nat)
    (timestamp : Z) (db : t) : t :=
  db ++ [mkRow tb product key count timestamp].

Definition insert_status := insert Status.
Definition insert_component := insert Component.
Definition insert_l3 := insert L3.
Definition insert_l3_cases := insert L3Cases.
Definition insert_priority := insert Priority.
Definition insert_assigned := insert Assigned.
End QuestDB.

Definition table_eqb (a b : table) : bool :=
  match a, b with
  | Status, Status | Component, Component | L3, L3
  | L3Cases, L3Cases | Priority, Priority | Assigned, Assigned => true
  | _, _ => false
  end.

(** The rows of one table, in the order they were written. *)
Definition rows_of (tb : table) (db : QuestDB.t) : list Row :=
  filter (fun r => table_eqb (row_table r) tb) db.

(** ** Grouper: [group_bugs_by_assignee], [group_bugs_by_component],
    [group_bugs_by_status]

    The three functions of the source are the same loop over a different
    attribute; [group_step] is the loop body and [group_bugs_by] the loop. *)

Section Grouper.
Variable attr : Bug -> string.

Definition group_step (grouped_bugs : Dict.t (list Bug)) (bug : Bug)
    : Dict.t (list Bug) :=
  let grouped_bugs :=
    if negb (Dict.mem (attr bug) grouped_bugs)
    then Dict.set (attr bug) [] grouped_bugs
    else grouped_bugs in
  Dict.update (attr bug) (fun bucket => bucket ++ [bug]) grouped_bugs.

Definition group_bugs_by (bugs : list Bug) : Dict.t (list Bug) :=
  fold_left group_step bugs Dict.empty.
End Grouper.

Definition group_bugs_by_assignee : list Bug -> Dict.t (list Bug) :=
  group_bugs_by assigned_to.

Definition group_bugs_by_component : list Bug -> Dict.t (list Bug) :=
  group_bugs_by component.

Definition group_bugs_by_status : list Bug -> Dict.t (list Bug) :=
  group_bugs_by status.

(** ** Classifier: [is_l3], [has_needinfo] *)

Definition is_l3 (bug : Bug) : bool :=
  PyStr.contains "wasL3:" (whiteboard bug)
  || PyStr.contains "openL3:" (whiteboard bug).

Definition has_needinfo (bug : Bug) : bool :=
  existsb
    (fun flag => eq_str (Dict.get_default "name" (PStr "") flag) "needinfo")
    (flags bug).

(** ** Aggregator: the body of [for product in products] in [main] *)

(** [for key, bugs in grouped_bugs.items(): insert(product, key, len(bugs),
    timestamp)] *)
Definition insert_groups
    (insert : string -> string -> nat -> Z -> QuestDB.t -> QuestDB.t)
    (product : string) (timestamp : Z)
    (grouped_bugs : Dict.t (list Bug)) (db : QuestDB.t) : QuestDB.t :=
  fold_left
    (fun db entry => insert product (fst entry) (List.length (snd entry)) timestamp db)
    (Dict.items grouped_bugs) db.

(** The body of the [# L3 cases] loop:
    [results["open"] += l3.whiteboard.count("openL3:")] and the same for
    [closed] and [wasL3:]. *)
Definition l3_cases_step (results : Dict.t nat) (l3 : Bug) : Dict.t nat :=
  let results :=
    Dict.update "open"
      (fun n => n + PyStr.count "openL3:" (whiteboard l3)) results in
  Dict.update "closed"
    (fun n => n + PyStr.count "wasL3:" (whiteboard l3)) results.

Definition count_l3_cases (bugzilla_l3s : list Bug) : Dict.t nat :=
  fold_left l3_cases_step bugzilla_l3s [("open", 0); ("closed", 0)].

(** [bug.priority[:2].lower()] *)
Definition prio_of (bug : Bug) : string :=
  PyStr.lower (PyStr.slice_to 2 (priority bug)).

(** The body of the [# Bugs per priority] loop. *)
Definition priority_step (results : Dict.t nat) (bug : Bug) : Dict.t nat :=
  let prio := prio_of bug in
  if Dict.mem prio results
  then Dict.update prio (fun n => n + 1) results
  else results.

Definition count_priorities (bugzilla_bugs : list Bug) : Dict.t nat :=
  fold_left priority_step bugzilla_bugs [("p1", 0); ("p2", 0); ("p3", 0)].

(** [bug.status != "RESOLVED"] *)
Definition is_open (bug : Bug) : bool :=
  negb (String.eqb (status bug) "RESOLVED").

(** Lines 95 to 133: everything done with the bugs of one product.
    [results["open"]] is a plain subscript in the source; the key is there,
    so the default of [get_default] is never used. *)
Definition aggregate (product : string) (timestamp : Z)
    (bugzilla_bugs : list Bug) (db : QuestDB.t) : QuestDB.t :=
  let bugzilla_l3s := filter is_l3 bugzilla_bugs in
  (* Bugs by status *)
  let grouped_bugs := group_bugs_by_status bugzilla_bugs in
  let db := insert_groups QuestDB.insert_status product timestamp grouped_bugs db in
  (* Bugs by component *)
  let grouped_bugs := group_bugs_by_component bugzilla_bugs in
  let db := insert_groups QuestDB.insert_component product timestamp grouped_bugs db in
  (* L3 bugs *)
  let l3s := group_bugs_by_status bugzilla_l3s in
  let db := insert_groups QuestDB.insert_l3 product timestamp l3s db in
  (* L3 cases *)
  let results := count_l3_cases bugzilla_l3s in
  let db := QuestDB.insert_l3_cases product "open"
              (Dict.get_default "open" 0 results) timestamp db in
  let db := QuestDB.insert_l3_cases product "closed"
              (Dict.get_default "closed" 0 results) timestamp db in
  (* Bugs per priority *)
  let results := count_priorities bugzilla_bugs in
  let db :=
    fold_left
      (fun db entry =>
         QuestDB.insert_priority product (fst entry) (snd entry) timestamp db)
      (Dict.items results) db in
  (* Open bugs per assignee *)
  let open_bugs := filter is_open bugzilla_bugs in
  let grouped_bugs := group_bugs_by_assignee open_bugs in
  insert_groups QuestDB.insert_assigned product timestamp grouped_bugs db.

(** The local state of one pass: the records fetched for the product and the
    database they are reported to. *)
Record Pass : Type := mkPass {
  pass_bugs : list Bug;
  pass_db : QuestDB.t
}.

Definition run_pass (product : string) (timestamp : Z) (p : Pass) : Pass :=
  {| pass_bugs := pass_bugs p;
     pass_db := aggregate product timestamp (pass_bugs p) (pass_db p) |}.

(** ** Cycle driver: [main] *)

(** [options]: the command line, [--use-cache] and [<minutes>]. *)
Record Options : Type := mkOptions {
  opt_use_cache : option bool;
  opt_minutes : option nat
}.

(** The state [main] runs in: the wall clock, in seconds, and the database. *)
Record World : Type := mkWorld {
  clock : Z;
  questdb : QuestDB.t
}.

Section Main.
(** [settings["bugzilla"]["products"]] *)
Variable products : list string.
(** [bgznet.get_bugs_for_product], not part of this file: what the tracker
    holds for [product] when asked at a given time. *)
Variable get_bugs_for_product : string -> bool -> Z -> list Bug.
Variable options : Options.

(** [datetime.now()] *)
Definition datetime_now (w : World) : Z := clock w.

(** [time.sleep(seconds)]: the clock moves on by [seconds], the least it
    can; the other calls are taken to use no time. *)
Definition time_sleep (seconds : nat) (w : World) : World :=
  {| clock := clock w + Z.of_nat seconds; questdb := questdb w |}.

(** [for product in products: ...] *)
Definition for_products (timestamp : Z) (w : World) : World :=
  fold_left
    (fun w product =>
       let bugzilla_bugs :=
         get_bugs_for_product product
           (match opt_use_cache options with Some b => b | None => false end)
           (clock w) in
       {| clock := clock w;
          questdb := aggregate product timestamp bugzilla_bugs (questdb w) |})
    products w.

(** One round of [while True]: all products, then the sleep. *)
Definition cycle (timestamp : Z) (w : World) : World :=
  let w := for_products timestamp w in
  let interval_minutes :=
    match opt_minutes options with Some m => m | None => 1440 end in
  time_sleep (60 * interval_minutes) w.

(** The first [n] rounds of [while True]. *)
Fixpoint while_true (n : nat) (timestamp : Z) (w : World) : World :=
  match n with
  | O => w
  | S n' => while_true n' timestamp (cycle timestamp w)
  end.

(** [main(options)], cut after [n] rounds of its loop.  [timestamp] is
    bound before the loop, as in the source.  [db.connect] and
    [db.setup_tables] write no row, and the [print] calls reach the
    terminal only: they are left out. *)
Definition main (n : nat) (w : World) : World :=
  let timestamp := datetime_now w in
  while_true n timestamp w.
End Main.

(** ** Vocabulary of the statements *)

(** The record carries key [k] under the attribute [attr]. *)
Definition has_attr (attr : Bug -> string) (k : string) (bug : Bug) : bool :=
  String.eqb (attr bug) k.

(** The sum of the bucket sizes of a grouping. *)
Definition bucket_total (d : Dict.t (list Bug)) : nat :=
  list_sum (map (fun entry => List.length (snd entry)) (Dict.items d)).

(** What it means for [d] to group [bugs] by [attr]: [d] is a mapping (no key
    twice); the bucket under [k] holds the records with key [k], each as often
    as the input has it and in input order; every record is in the bucket of
    its own key and in no other; the bucket sizes add up to the input length;
    and no bucket is empty: every key present is the key of some record. *)
Record Grouping (attr : Bug -> string) (bugs : list Bug)
    (d : Dict.t (list Bug)) : Prop := {
  grouping_keys_unique : NoDup (Dict.keys d);
  grouping_bucket :
    forall k bucket, In (k, bucket) (Dict.items d) ->
      bucket = filter (has_attr attr k) bugs;
  grouping_covers :
    forall bug, In bug bugs ->
      exists bucket, Dict.get (attr bug) d = Some bucket /\ In bug bucket;
  grouping_one_bucket :
    forall bug k bucket, In bug bugs ->
      In (k, bucket) (Dict.items d) -> In bug bucket -> k = attr bug;
  grouping_total : bucket_total d = List.length bugs;
  grouping_no_empty_bucket :
    forall k bucket, In (k, bucket) (Dict.items d) ->
      bucket <> [] /\ exists bug, In bug bugs /\ attr bug = k
}.

(** [sub] occurs in [s] as a substring. *)
Definition Substring (sub s : string) : Prop :=
  exists pre post, s = (pre ++ sub ++ post)%string.

(** The rows one grouping is reported with. *)
Definition group_rows (tb : table) (product : string) (timestamp : Z)
    (d : Dict.t (list Bug)) : list Row :=
  map (fun entry => mkRow tb product (fst entry) (List.length (snd entry)) timestamp)
      (Dict.items d).

(** Occurrences of a marker over the whiteboards of a list of records. *)
Definition marker_total (marker : string) (bugs : list Bug) : nat :=
  list_sum (map (fun bug => PyStr.occurrences marker (whiteboard bug)) bugs).

(** The number of records whose priority key is [k]. *)
Definition prio_count (k : string) (bugs : list Bug) : nat :=
  List.length (filter (fun bug => String.eqb (prio_of bug) k) bugs).

(** The number of records assigned to [a] whose status is not [RESOLVED]. *)
Definition open_load (a : string) (bugs : list Bug) : nat :=
  List.length
    (filter (fun bug => is_open bug && String.eqb (assigned_to bug) a) bugs).

(** The rows of one pass in closed form, table after table in the order
    of the source; [aggregate_metrics] shows that [aggregate] appends
    exactly these. *)
Definition metrics (product : string) (timestamp : Z) (bugs : list Bug)
    : list Row :=
  group_rows Status product timestamp (group_bugs_by_status bugs)
  ++ group_rows Component product timestamp (group_bugs_by_component bugs)
  ++ group_rows L3 product timestamp (group_bugs_by_status (filter is_l3 bugs))
  ++ [mkRow L3Cases product "open"
        (marker_total "openL3:" (filter is_l3 bugs)) timestamp;
      mkRow L3Cases product "closed"
        (marker_total "wasL3:" (filter is_l3 bugs)) timestamp]
  ++ [mkRow Priority product "p1" (prio_count "p1" bugs) timestamp;
      mkRow Priority product "p2" (prio_count "p2" bugs) timestamp;
      mkRow Priority product "p3" (prio_count "p3" bugs) timestamp]
  ++ group_rows Assigned product timestamp
       (group_bugs_by_assignee (filter is_open bugs)).

(** ** A concrete run *)

(** One product, one open escalation in the tracker, a round every minute,
    started at second 1000 on an empty database. *)
Definition demo_bug : Bug :=
  mkBug 1 "NEW" "A" "alice" "P1" "openL3: case1" [].

Definition demo_products : list string := ["X"].

Definition demo_tracker (product : string) (use_cache : bool) (now : Z)
    : list Bug :=
  [demo_bug].

Definition demo_options : Options :=
  {| opt_use_cache := None; opt_minutes := Some 1 |}.

Definition demo_start : World := {| clock := 1000; questdb := [] |}.

Definition demo_main (n : nat) : World :=
  main demo_products demo_tracker demo_options n demo_start.

(** The rows written during round [n + 1]: what the database holds after it
    beyond what it held before. *)
Definition demo_rows_of_round (n : nat) : list Row :=
  skipn (List.length (questdb (demo_main n))) (questdb (demo_main (S n))).

(** A record whose priority has fewer than two characters. *)
Definition short_priority_bug : Bug :=
  mkBug 2 "NEW" "A" "alice" "X" "" [].

(** Every row carries the timestamp [t]. *)
Definition stamped (t : Z) (rows : list Row) : Prop :=
  Forall (fun r => row_timestamp r = t) rows.

(** ** Vocabulary of the further properties *)

(** The distinct keys of [l], each at the place of its first occurrence. *)
Fixpoint first_seen (l : list string) : list string :=
  match l with
  | [] => []
  | k :: l' => k :: filter (fun k' => negb (String.eqb k' k)) (first_seen l')
  end.

(** The counts of some rows, added up. *)
Definition count_total (rows : list Row) : nat :=
  list_sum (map row_count rows).

(** [k] is one of the three priority buckets. *)
Definition is_prio_key (k : string) : bool :=
  String.eqb k "p1" || String.eqb k "p2" || String.eqb k "p3".

(** [options.get("--use-cache", False)] *)
Definition use_cache_of (options : Options) : bool :=
  match opt_use_cache options with Some b => b | None => false end.

(** [60 * int(options.get("<minutes>", 1440))] *)
Definition interval_seconds (options : Options) : nat :=
  60 * match opt_minutes options with Some m => m | None => 1440 end.

(** What one round writes when it stamps with [timestamp] and fetches at
    time [now]: the passes of the products, one after the other. *)
Definition round_rows (products : list string)
    (get_bugs_for_product : string -> bool -> Z -> list Bug)
    (options : Options) (timestamp now : Z) : list Row :=
  flat_map
    (fun product =>
       aggregate product timestamp
         (get_bugs_for_product product (use_cache_of options) now) [])
    products.

(** The rows of table [tb] under key [k]. *)
Definition rows_at (tb : table) (k : string) (db : QuestDB.t) : list Row :=
  filter (fun r => String.eqb (row_key r) k) (rows_of tb db).

(** * Properties *)

(** ** Dictionaries *)

Section DictFacts.
Context {V : Type}.
Implicit Types (d : Dict.t V) (k : string) (v : V).

Lemma get_set_same k v d : Dict.get k (Dict.set k v d) = Some v.
Proof.
  induction d as [|[k' v'] d IH]; simpl.
  - now rewrite String.eqb_refl.
  - destruct (String.eqb k' k) eqn:E; simpl; rewrite E; auto.
Qed.

Lemma get_set_other k k' v d :
  k <> k' -> Dict.get k' (Dict.set k v d) = Dict.get k' d.
Proof.
  intros Hne. induction d as [|[k0 v0] d IH]; simpl.
  - apply String.eqb_neq in Hne. now rewrite Hne.
  - destruct (String.eqb_spec k0 k) as [->|Hk]; simpl.
    + apply String.eqb_neq in Hne. now rewrite Hne.
    + now rewrite IH.
Qed.

Lemma get_None_keys k d : Dict.get k d = None <-> ~ In k (Dict.keys d).
Proof.
  induction d as [|[k' v'] d IH]; simpl.
  - tauto.
  - destruct (String.eqb_spec k' k) as [->|Hne].
    + split; [discriminate | tauto].
    + rewrite IH. tauto.
Qed.

Lemma get_Some_In k v d : Dict.get k d = Some v -> In (k, v) d.
Proof.
  induction d as [|[k' v'] d IH]; simpl; [discriminate|].
  destruct (String.eqb_spec k' k) as [->|Hne].
  - intros [= ->]. now left.
  - auto.
Qed.

Lemma In_get_Some k v d :
  NoDup (Dict.keys d) -> In (k, v) d -> Dict.get k d = Some v.
Proof.
  induction d as [|[k' v'] d IH]; simpl; [tauto|].
  intros Hnd [Heq|Hin].
  - injection Heq as -> ->. now rewrite String.eqb_refl.
  - inversion Hnd as [|? ? Hnotin Hnd']; subst.
    destruct (String.eqb_spec k' k) as [->|Hne].
    + exfalso. apply Hnotin. change (In (fst (k, v)) (map fst d)).
      now apply in_map.
    + auto.
Qed.

Lemma set_absent k v d : Dict.get k d = None -> Dict.set k v d = d ++ [(k, v)].
Proof.
  induction d as [|[k' v'] d IH]; simpl; [reflexivity|].
  destruct (String.eqb k' k); [discriminate|].
  intros H. now rewrite IH.
Qed.

Lemma keys_set_present k v v0 d :
  Dict.get k d = Some v0 -> Dict.keys (Dict.set k v d) = Dict.keys d.
Proof.
  induction d as [|[k' v'] d IH]; simpl; [discriminate|].
  destruct (String.eqb k' k); simpl.
  - reflexivity.
  - intros H. f_equal. now apply IH.
Qed.

Lemma keys_update k (f : V -> V) d :
  Dict.keys (Dict.update k f d) = Dict.keys d.
Proof.
  unfold Dict.update. destruct (Dict.get k d) eqn:E; [|reflexivity].
  eapply keys_set_present; eauto.
Qed.

Lemma get_update_same k (f : V -> V) d :
  Dict.get k (Dict.update k f d) = option_map f (Dict.get k d).
Proof.
  unfold Dict.update. destruct (Dict.get k d) eqn:E; simpl.
  - apply get_set_same.
  - exact E.
Qed.

Lemma get_update_other k k' (f : V -> V) d :
  k <> k' -> Dict.get k' (Dict.update k f d) = Dict.get k' d.
Proof.
  intros Hne. unfold Dict.update. destruct (Dict.get k d); [|reflexivity].
  now apply get_set_other.
Qed.

Lemma NoDup_keys_snoc k v d :
  NoDup (Dict.keys d) -> Dict.get k d = None -> NoDup (Dict.keys (d ++ [(k, v)])).
Proof.
  intros Hnd Hget. unfold Dict.keys. rewrite map_app. simpl.
  apply get_None_keys in Hget.
  apply NoDup_app; [assumption | repeat constructor; simpl; tauto | ].
  intros x Hx [<-|[]]. contradiction.
Qed.
End DictFacts.

(** ** Grouper *)

Section GrouperFacts.
Variable attr : Bug -> string.

Lemma group_bugs_by_snoc bugs bug :
  group_bugs_by attr (bugs ++ [bug])
  = group_step attr (group_bugs_by attr bugs) bug.
Proof. unfold group_bugs_by. now rewrite fold_left_app. Qed.

(** The subscript in [grouped_bugs[key].append(bug)] finds its key. *)
Lemma group_step_has_key (d : Dict.t (list Bug)) bug :
  Dict.mem (attr bug)
    (if negb (Dict.mem (attr bug) d) then Dict.set (attr bug) [] d else d)
  = true.
Proof.
  destruct (Dict.mem (attr bug) d) eqn:E; simpl; [exact E|].
  unfold Dict.mem. now rewrite get_set_same.
Qed.

Lemma get_group_step_same (d : Dict.t (list Bug)) bug :
  Dict.get (attr bug) (group_step attr d bug)
  = Some (match Dict.get (attr bug) d with
          | Some bucket => bucket ++ [bug]
          | None => [bug]
          end).
Proof.
  unfold group_step, Dict.mem. rewrite get_update_same.
  destruct (Dict.get (attr bug) d) eqn:E; simpl.
  - now rewrite E.
  - now rewrite get_set_same.
Qed.

Lemma get_group_step_other (d : Dict.t (list Bug)) bug k :
  attr bug <> k -> Dict.get k (group_step attr d bug) = Dict.get k d.
Proof.
  intros Hne. unfold group_step. rewrite get_update_other by assumption.
  destruct (negb (Dict.mem (attr bug) d)); [|reflexivity].
  now apply get_set_other.
Qed.

Lemma keys_group_step (d : Dict.t (list Bug)) bug :
  NoDup (Dict.keys d) -> NoDup (Dict.keys (group_step attr d bug)).
Proof.
  intros Hnd. unfold group_step. rewrite keys_update.
  unfold Dict.mem. destruct (Dict.get (attr bug) d) eqn:E; simpl.
  - assumption.
  - rewrite set_absent by assumption. now apply NoDup_keys_snoc.
Qed.

Lemma bucket_total_set (d : Dict.t (list Bug)) k bucket bucket' :
  Dict.get k d = Some bucket ->
  bucket_total (Dict.set k bucket' d) + List.length bucket
  = bucket_total d + List.length bucket'.
Proof.
  unfold bucket_total, Dict.items.
  induction d as [|[k0 v0] d IH]; simpl; [discriminate|].
  destruct (String.eqb k0 k); simpl.
  - intros [= ->]. lia.
  - intros H. specialize (IH H). lia.
Qed.

Lemma bucket_total_set_absent (d : Dict.t (list Bug)) k bucket :
  Dict.get k d = None ->
  bucket_total (Dict.set k bucket d) = bucket_total d + List.length bucket.
Proof.
  intros H. rewrite set_absent by assumption.
  unfold bucket_total, Dict.items. rewrite map_app, list_sum_app.
  simpl. lia.
Qed.

Lemma bucket_total_group_step (d : Dict.t (list Bug)) bug :
  bucket_total (group_step attr d bug) = S (bucket_total d).
Proof.
  unfold group_step, Dict.update, Dict.mem.
  destruct (Dict.get (attr bug) d) as [bucket|] eqn:E; simpl.
  - rewrite E.
    pose proof (bucket_total_set d (attr bug) bucket (bucket ++ [bug]) E) as H.
    rewrite length_app in H. simpl in H. lia.
  - rewrite get_set_same.
    pose proof (bucket_total_set (Dict.set (attr bug) [] d) (attr bug) []
                  ([] ++ [bug]) (get_set_same _ _ _)) as H.
    rewrite (bucket_total_set_absent d (attr bug) [] E) in H.
    simpl in H. simpl. lia.
Qed.

(** The bucket found under a key, in closed form. *)
Lemma get_group_bugs_by k bugs :
  Dict.get k (group_bugs_by attr bugs)
  = match filter (has_attr attr k) bugs with
    | [] => None
    | bucket => Some bucket
    end.
Proof.
  induction bugs as [|bug bugs IH] using rev_ind; [reflexivity|].
  rewrite group_bugs_by_snoc, filter_app. simpl.
  unfold has_attr at 2. destruct (String.eqb_spec (attr bug) k) as [<-|Hne].
  - rewrite get_group_step_same, IH.
    destruct (filter (has_attr attr (attr bug)) bugs) as [|x l]; reflexivity.
  - rewrite get_group_step_other, IH, app_nil_r by assumption. reflexivity.
Qed.

Lemma keys_group_bugs_by bugs : NoDup (Dict.keys (group_bugs_by attr bugs)).
Proof.
  induction bugs as [|bug bugs IH] using rev_ind; [constructor|].
  rewrite group_bugs_by_snoc. now apply keys_group_step.
Qed.

Lemma bucket_total_group_bugs_by bugs :
  bucket_total (group_bugs_by attr bugs) = List.length bugs.
Proof.
  induction bugs as [|bug bugs IH] using rev_ind; [reflexivity|].
  rewrite group_bugs_by_snoc, bucket_total_group_step, IH, length_app.
  simpl. lia.
Qed.

Lemma In_group_bugs_by k bucket bugs :
  In (k, bucket) (Dict.items (group_bugs_by attr bugs)) <->
  bucket = filter (has_attr attr k) bugs /\ bucket <> [].
Proof.
  unfold Dict.items. split.
  - intros Hin. apply (In_get_Some _ _ _ (keys_group_bugs_by bugs)) in Hin.
    rewrite get_group_bugs_by in Hin.
    destruct (filter (has_attr attr k) bugs) eqn:E; [discriminate|].
    injection Hin as <-. split; [reflexivity | discriminate].
  - intros [-> Hne]. apply get_Some_In. rewrite get_group_bugs_by.
    destruct (filter (has_attr attr k) bugs); [contradiction | reflexivity].
Qed.

(** [group_bugs_by] groups. *)
Lemma group_bugs_by_grouping bugs :
  Grouping attr bugs (group_bugs_by attr bugs).
Proof.
  constructor.
  - apply keys_group_bugs_by.
  - intros k bucket Hin. now apply In_group_bugs_by in Hin.
  - intros bug Hin. rewrite get_group_bugs_by.
    assert (Hf : In bug (filter (has_attr attr (attr bug)) bugs)).
    { apply filter_In. split; [assumption|]. apply String.eqb_refl. }
    destruct (filter (has_attr attr (attr bug)) bugs) as [|x l];
      [contradiction|]. eauto.
  - intros bug k bucket _ Hin Hb. apply In_group_bugs_by in Hin as [-> _].
    apply filter_In in Hb as [_ Hb]. symmetry. now apply String.eqb_eq.
  - apply bucket_total_group_bugs_by.
  - intros k bucket Hin. apply In_group_bugs_by in Hin as [-> Hne].
    split; [assumption|].
    destruct (filter (has_attr attr k) bugs) as [|bug l] eqn:E;
      [contradiction|].
    assert (Hb : In bug (filter (has_attr attr k) bugs))
      by (rewrite E; now left).
    apply filter_In in Hb as [Hb1 Hb2].
    exists bug. split; [assumption|]. now apply String.eqb_eq.
Qed.
End GrouperFacts.

(** C2. For every list of records and each of the three grouping functions
    (by status, by component, by assignee): the result is a mapping whose
    bucket under a key holds exactly the input records with that key; every
    input record is in the bucket of its key and in no other bucket; the
    bucket sizes sum to the length of the input; and a bucket exists only for
    a key that some input record has, so no bucket is empty. *)
Theorem C2_grouping_partitions_records (bugs : list Bug) :
  Grouping status bugs (group_bugs_by_status bugs) /\
  Grouping component bugs (group_bugs_by_component bugs) /\
  Grouping assigned_to bugs (group_bugs_by_assignee bugs).
Proof. split; [|split]; apply group_bugs_by_grouping. Qed.

(** ** Strings *)

Lemma startswith_app sub s :
  PyStr.startswith sub s = true <-> exists post, s = (sub ++ post)%string.
Proof.
  unfold PyStr.startswith. revert s.
  induction sub as [|c sub IH]; intros s; simpl.
  - split; [intros _; now exists s | intros _; now destruct s].
  - destruct s as [|c' s]; simpl.
    + split; [discriminate | intros [post H]; discriminate].
    + destruct (ascii_dec c c') as [Heq|Hne].
      * subst c'. rewrite IH. split; intros [post H]; exists post.
        -- now subst.
        -- now injection H.
      * split; [discriminate|]. intros [post H]. congruence.
Qed.

Lemma contains_unfold sub s :
  PyStr.contains sub s
  = PyStr.startswith sub s
    || match s with EmptyString => false | String _ s' => PyStr.contains sub s' end.
Proof. destruct s; reflexivity. Qed.

(** [in] on strings is substring containment. *)
Lemma contains_Substring sub s :
  PyStr.contains sub s = true <-> Substring sub s.
Proof.
  unfold Substring. split.
  - induction s as [|c s IH]; rewrite contains_unfold; intros H;
      apply orb_true_iff in H as [H|H].
    + apply startswith_app in H as [post ->]. now exists EmptyString, post.
    + discriminate.
    + apply startswith_app in H as [post ->]. now exists EmptyString, post.
    + destruct (IH H) as (pre & post & ->). now exists (String c pre), post.
  - intros (pre & post & ->). induction pre as [|c pre IH].
    + rewrite contains_unfold. apply orb_true_iff. left.
      apply startswith_app. now exists post.
    + rewrite contains_unfold. apply orb_true_iff. right. exact IH.
Qed.

Lemma length_slice_to n s :
  String.length (PyStr.slice_to n s) = Nat.min n (String.length s).
Proof.
  revert s. induction n as [|n IH]; intros [|c s]; simpl; auto.
Qed.

Lemma length_lower s : String.length (PyStr.lower s) = String.length s.
Proof. induction s; simpl; auto. Qed.

Lemma count_from_unfold sub c s :
  PyStr.count_from sub 0 (String c s)
  = if PyStr.startswith sub (String c s)
    then S (PyStr.count_from sub (Nat.pred (String.length sub)) s)
    else PyStr.count_from sub 0 s.
Proof. reflexivity. Qed.

Lemma occurrences_unfold sub c s :
  PyStr.occurrences sub (String c s)
  = (if PyStr.startswith sub (String c s) then 1 else 0)
    + PyStr.occurrences sub s.
Proof. reflexivity. Qed.

(** For a marker that cannot overlap itself, [count] sees every occurrence.
    The argument is by induction on the length of the text: behind a match
    the scan steps over the marker, and no occurrence starts inside it. *)
Ltac count_is_occurrences :=
  intros s; unfold PyStr.count;
  remember (String.length s) as n eqn:Hn;
  revert s Hn; induction n as [n IH] using lt_wf_ind; intros s Hn;
  destruct s as [|c s]; [reflexivity|];
  rewrite count_from_unfold, occurrences_unfold;
  destruct (PyStr.startswith _ (String c s)) eqn:E;
  [ apply startswith_app in E as [post E]; injection E as -> ->;
    cbn -[Nat.add]; simpl; f_equal;
    apply (IH (String.length post)); [subst n; simpl; lia | reflexivity]
  | simpl; apply (IH (String.length s)); [subst n; simpl; lia | reflexivity] ].

Lemma count_openL3 s :
  PyStr.count "openL3:" s = PyStr.occurrences "openL3:" s.
Proof. revert s. count_is_occurrences. Qed.

Lemma count_wasL3 s :
  PyStr.count "wasL3:" s = PyStr.occurrences "wasL3:" s.
Proof. revert s. count_is_occurrences. Qed.

(** ** Aggregator *)

Lemma l3_cases_step_counts (l3 : Bug) (a b : nat) :
  l3_cases_step [("open", a); ("closed", b)] l3
  = [("open", a + PyStr.occurrences "openL3:" (whiteboard l3));
     ("closed", b + PyStr.occurrences "wasL3:" (whiteboard l3))].
Proof. now rewrite <- count_openL3, <- count_wasL3. Qed.

Lemma count_l3_cases_from (l3s : list Bug) (a b : nat) :
  fold_left l3_cases_step l3s [("open", a); ("closed", b)]
  = [("open", a + marker_total "openL3:" l3s);
     ("closed", b + marker_total "wasL3:" l3s)].
Proof.
  revert a b. induction l3s as [|l3 l3s IH]; intros a b.
  - simpl. now rewrite !Nat.add_0_r.
  - cbn [fold_left]. rewrite l3_cases_step_counts, IH.
    unfold marker_total. simpl. now rewrite !Nat.add_assoc.
Qed.

(** Both keys of [results] are there when the loop is done, with the
    marker totals. *)
Lemma count_l3_cases_keys (l3s : list Bug) :
  count_l3_cases l3s
  = [("open", marker_total "openL3:" l3s);
     ("closed", marker_total "wasL3:" l3s)].
Proof. unfold count_l3_cases. now rewrite count_l3_cases_from. Qed.

Lemma prio_count_cons k bug bugs :
  prio_count k (bug :: bugs)
  = (if String.eqb (prio_of bug) k then 1 else 0) + prio_count k bugs.
Proof.
  unfold prio_count. cbn [filter].
  now destruct (String.eqb (prio_of bug) k).
Qed.

Lemma priority_step_counts (bug : Bug) (a b c : nat) :
  priority_step [("p1", a); ("p2", b); ("p3", c)] bug
  = [("p1", a + if String.eqb (prio_of bug) "p1" then 1 else 0);
     ("p2", b + if String.eqb (prio_of bug) "p2" then 1 else 0);
     ("p3", c + if String.eqb (prio_of bug) "p3" then 1 else 0)].
Proof.
  unfold priority_step. generalize (prio_of bug) as prio. intros prio.
  unfold Dict.mem, Dict.update. cbn [Dict.get].
  rewrite (String.eqb_sym "p1" prio), (String.eqb_sym "p2" prio),
    (String.eqb_sym "p3" prio).
  destruct (String.eqb_spec prio "p1") as [->|N1];
    [cbn; now rewrite !Nat.add_0_r|].
  destruct (String.eqb_spec prio "p2") as [->|N2];
    [cbn; now rewrite !Nat.add_0_r|].
  destruct (String.eqb_spec prio "p3") as [->|N3];
    [cbn; now rewrite !Nat.add_0_r|].
  now rewrite !Nat.add_0_r.
Qed.

Lemma count_priorities_from (bugs : list Bug) (a b c : nat) :
  fold_left priority_step bugs [("p1", a); ("p2", b); ("p3", c)]
  = [("p1", a + prio_count "p1" bugs);
     ("p2", b + prio_count "p2" bugs);
     ("p3", c + prio_count "p3" bugs)].
Proof.
  revert a b c. induction bugs as [|bug bugs IH]; intros a b c.
  - unfold prio_count. simpl. now rewrite !Nat.add_0_r.
  - cbn [fold_left]. rewrite priority_step_counts, IH, !prio_count_cons.
    now rewrite !Nat.add_assoc.
Qed.

Lemma count_priorities_keys (bugs : list Bug) :
  count_priorities bugs
  = [("p1", prio_count "p1" bugs);
     ("p2", prio_count "p2" bugs);
     ("p3", prio_count "p3" bugs)].
Proof. unfold count_priorities. now rewrite count_priorities_from. Qed.

Lemma insert_groups_rows (tb : table) product timestamp d db :
  insert_groups (QuestDB.insert tb) product timestamp d db
  = db ++ group_rows tb product timestamp d.
Proof.
  unfold insert_groups, group_rows, Dict.items. revert db.
  induction d as [|entry d IH]; intros db; simpl.
  - now rewrite app_nil_r.
  - rewrite IH. unfold QuestDB.insert. now rewrite <- app_assoc.
Qed.

(** One pass appends [metrics] to the database and does nothing else. *)
Lemma aggregate_metrics product timestamp bugs db :
  aggregate product timestamp bugs db = db ++ metrics product timestamp bugs.
Proof.
  unfold aggregate, metrics.
  unfold QuestDB.insert_status, QuestDB.insert_component, QuestDB.insert_l3,
    QuestDB.insert_assigned, QuestDB.insert_l3_cases, QuestDB.insert_priority.
  rewrite !insert_groups_rows, count_l3_cases_keys, count_priorities_keys.
  unfold QuestDB.insert. simpl. rewrite <- !app_assoc. reflexivity.
Qed.

(** ** Rows by table *)

Lemma rows_of_app tb db1 db2 :
  rows_of tb (db1 ++ db2) = rows_of tb db1 ++ rows_of tb db2.
Proof. apply filter_app. Qed.

Lemma rows_of_group_rows tb tb' product timestamp d :
  rows_of tb (group_rows tb' product timestamp d)
  = if table_eqb tb' tb then group_rows tb' product timestamp d else [].
Proof.
  unfold rows_of, group_rows, Dict.items.
  induction d as [|entry d IH]; simpl.
  - now destruct (table_eqb tb' tb).
  - rewrite IH. now destruct (table_eqb tb' tb).
Qed.

Lemma rows_of_aggregate tb product timestamp bugs db :
  rows_of tb (aggregate product timestamp bugs db)
  = rows_of tb db ++ rows_of tb (metrics product timestamp bugs).
Proof. now rewrite aggregate_metrics, rows_of_app. Qed.

Lemma rows_of_metrics_L3Cases product timestamp bugs :
  rows_of L3Cases (metrics product timestamp bugs)
  = [mkRow L3Cases product "open"
       (marker_total "openL3:" (filter is_l3 bugs)) timestamp;
     mkRow L3Cases product "closed"
       (marker_total "wasL3:" (filter is_l3 bugs)) timestamp].
Proof.
  unfold metrics. rewrite !rows_of_app, !rows_of_group_rows. reflexivity.
Qed.

Lemma rows_of_metrics_Priority product timestamp bugs :
  rows_of Priority (metrics product timestamp bugs)
  = [mkRow Priority product "p1" (prio_count "p1" bugs) timestamp;
     mkRow Priority product "p2" (prio_count "p2" bugs) timestamp;
     mkRow Priority product "p3" (prio_count "p3" bugs) timestamp].
Proof.
  unfold metrics. rewrite !rows_of_app, !rows_of_group_rows. reflexivity.
Qed.

Lemma rows_of_metrics_Status product timestamp bugs :
  rows_of Status (metrics product timestamp bugs)
  = group_rows Status product timestamp (group_bugs_by_status bugs).
Proof.
  unfold metrics. rewrite !rows_of_app, !rows_of_group_rows. simpl.
  now rewrite app_nil_r.
Qed.

Lemma rows_of_metrics_Component product timestamp bugs :
  rows_of Component (metrics product timestamp bugs)
  = group_rows Component product timestamp (group_bugs_by_component bugs).
Proof.
  unfold metrics. rewrite !rows_of_app, !rows_of_group_rows. simpl.
  now rewrite app_nil_r.
Qed.

Lemma rows_of_metrics_L3 product timestamp bugs :
  rows_of L3 (metrics product timestamp bugs)
  = group_rows L3 product timestamp
      (group_bugs_by_status (filter is_l3 bugs)).
Proof.
  unfold metrics. rewrite !rows_of_app, !rows_of_group_rows. simpl.
  now rewrite app_nil_r.
Qed.

Lemma rows_of_metrics_Assigned product timestamp bugs :
  rows_of Assigned (metrics product timestamp bugs)
  = group_rows Assigned product timestamp
      (group_bugs_by_assignee (filter is_open bugs)).
Proof.
  unfold metrics. rewrite !rows_of_app, !rows_of_group_rows. reflexivity.
Qed.

(** The rows of a grouping under one key: the one row of that bucket, if
    the key is there. *)
Lemma group_rows_of_key tb product timestamp (d : Dict.t (list Bug)) k :
  NoDup (Dict.keys d) ->
  filter (fun r => String.eqb (row_key r) k) (group_rows tb product timestamp d)
  = match Dict.get k d with
    | Some bucket => [mkRow tb product k (List.length bucket) timestamp]
    | None => []
    end.
Proof.
  unfold group_rows, Dict.items.
  induction d as [|[k0 bucket0] d IH]; intros Hnd; simpl; [reflexivity|].
  inversion Hnd as [|? ? Hnotin Hnd']; subst.
  destruct (String.eqb_spec k0 k) as [->|Hne].
  - f_equal. rewrite (IH Hnd').
    apply get_None_keys in Hnotin. now rewrite Hnotin.
  - now apply IH.
Qed.

Lemma group_rows_positive tb product timestamp attr bugs :
  Forall (fun r => 1 <= row_count r)
    (group_rows tb product timestamp (group_bugs_by attr bugs)).
Proof.
  apply Forall_forall. intros r Hr. unfold group_rows in Hr.
  apply in_map_iff in Hr as ([k bucket] & <- & Hin). simpl.
  apply In_group_bugs_by in Hin as [_ Hne].
  destruct bucket; [contradiction | simpl; lia].
Qed.

Lemma length_filter_filter {A} (f g : A -> bool) (l : list A) :
  List.length (filter f (filter g l))
  = List.length (filter (fun x => g x && f x) l).
Proof.
  induction l as [|x l IH]; simpl; [reflexivity|].
  destruct (g x); simpl; [destruct (f x); simpl; now rewrite IH | exact IH].
Qed.

(** ** Classifier *)

(** C6. [is_l3] is true exactly when the whiteboard contains [wasL3:] or
    [openL3:] as a substring; on an empty whiteboard it is false.  It is a
    total function of the record: there is no input on which it fails. *)
Theorem C6_is_l3_iff_marker (bug : Bug) :
  (is_l3 bug = true <->
   Substring "wasL3:" (whiteboard bug) \/ Substring "openL3:" (whiteboard bug))
  /\ (forall i st co a p fl, is_l3 (mkBug i st co a p "" fl) = false).
Proof.
  split.
  - unfold is_l3. rewrite orb_true_iff, !contains_Substring. reflexivity.
  - reflexivity.
Qed.

Lemma existsb_flags (flags : list (Dict.t pyval)) :
  existsb
    (fun flag => eq_str (Dict.get_default "name" (PStr "") flag) "needinfo")
    flags = true
  <-> exists flag,
        In flag flags /\ Dict.get "name" flag = Some (PStr "needinfo").
Proof.
  rewrite existsb_exists. split; intros (flag & Hin & H); exists flag;
    (split; [assumption|]).
  - unfold Dict.get_default in H.
    destruct (Dict.get "name" flag) as [[s| | |]|]; try discriminate.
    simpl in H. apply String.eqb_eq in H. now subst.
  - unfold Dict.get_default. now rewrite H.
Qed.

(** C10. [has_needinfo] is total on records whose flags are dictionaries.
    A flag without a [name] key reads as the name [""] and does not match;
    the result is true exactly when some flag holds the string [needinfo]
    under [name]. *)
Theorem C10_has_needinfo_missing_name (bug : Bug) :
  (has_needinfo bug = true <->
   exists flag,
     In flag (flags bug) /\ Dict.get "name" flag = Some (PStr "needinfo"))
  /\ (forall flag,
        Dict.get "name" flag = None ->
        Dict.get_default "name" (PStr "") flag = PStr "" /\
        eq_str (Dict.get_default "name" (PStr "") flag) "needinfo" = false)
  /\ (forall i st co a p w flags,
        Forall (fun flag => Dict.get "name" flag = None) flags ->
        has_needinfo (mkBug i st co a p w flags) = false).
Proof.
  split; [apply existsb_flags|]. split.
  - intros flag H. unfold Dict.get_default. now rewrite H.
  - intros i st co a p w fl Hall. unfold has_needinfo. simpl.
    induction Hall as [|flag fl H _ IH]; [reflexivity|]. simpl.
    unfold Dict.get_default at 1. now rewrite H.
Qed.

(** ** Aggregator *)

(** C3. The two escalation sub-event rows of a pass carry the number of
    occurrences of [openL3:] and of [wasL3:], added up over the whiteboards
    of the escalation subset (occurrences, not records: the whiteboard
    [openL3: a openL3: b] gives 2); a pass writes exactly these two rows to
    the table, also when a count is zero. *)
Theorem C3_l3_case_counts (product : string) (timestamp : Z)
    (bugs : list Bug) (db : QuestDB.t) :
  rows_of L3Cases (aggregate product timestamp bugs db)
  = rows_of L3Cases db
    ++ [mkRow L3Cases product "open"
          (marker_total "openL3:" (filter is_l3 bugs)) timestamp;
        mkRow L3Cases product "closed"
          (marker_total "wasL3:" (filter is_l3 bugs)) timestamp]
  /\ rows_of L3Cases
       (aggregate product timestamp
          [mkBug 1 "NEW" "A" "alice" "P1" "openL3: a openL3: b" []] [])
     = [mkRow L3Cases product "open" 2 timestamp;
        mkRow L3Cases product "closed" 0 timestamp]
  /\ rows_of L3Cases (aggregate product timestamp [] [])
     = [mkRow L3Cases product "open" 0 timestamp;
        mkRow L3Cases product "closed" 0 timestamp].
Proof.
  split; [|split].
  - now rewrite rows_of_aggregate, rows_of_metrics_L3Cases.
  - now rewrite rows_of_aggregate, rows_of_metrics_L3Cases.
  - now rewrite rows_of_aggregate, rows_of_metrics_L3Cases.
Qed.

(** C4. The priority rows of a pass are the three rows [p1], [p2], [p3], in
    this order and once each, also when a count is zero; the count of a
    bucket is the number of records whose priority, cut to its first two
    characters and lower-cased, is the bucket key.  A record with any other
    key is counted nowhere: [P1-High] counts for [p1], [X] and the empty
    priority for no bucket. *)
Theorem C4_priority_buckets (product : string) (timestamp : Z)
    (bugs : list Bug) (db : QuestDB.t) :
  rows_of Priority (aggregate product timestamp bugs db)
  = rows_of Priority db
    ++ [mkRow Priority product "p1" (prio_count "p1" bugs) timestamp;
        mkRow Priority product "p2" (prio_count "p2" bugs) timestamp;
        mkRow Priority product "p3" (prio_count "p3" bugs) timestamp]
  /\ map row_count
       (rows_of Priority
          (aggregate product timestamp
             [mkBug 1 "NEW" "A" "alice" "P1-High" "" [];
              mkBug 2 "NEW" "A" "alice" "X" "" [];
              mkBug 3 "NEW" "A" "alice" "" "" []] []))
     = [1; 0; 0].
Proof.
  split.
  - now rewrite rows_of_aggregate, rows_of_metrics_Priority.
  - now rewrite rows_of_aggregate, rows_of_metrics_Priority.
Qed.

Lemma is_open_iff (bug : Bug) :
  is_open bug = true <-> status bug <> "RESOLVED".
Proof.
  unfold is_open. rewrite negb_true_iff. apply String.eqb_neq.
Qed.

Lemma get_open_load a bugs :
  Dict.get a (group_bugs_by_assignee (filter is_open bugs))
  = match filter (has_attr assigned_to a) (filter is_open bugs) with
    | [] => None
    | bucket => Some bucket
    end
  /\ List.length (filter (has_attr assigned_to a) (filter is_open bugs))
     = open_load a bugs.
Proof.
  split.
  - apply get_group_bugs_by.
  - unfold open_load. apply length_filter_filter.
Qed.

(** C5. The open-load rows of a pass come from the records whose status is
    not the string [RESOLVED], compared exactly ([resolved] is not
    [RESOLVED] and stays in), grouped by assignee: for every assignee the
    pass writes one row with the number of such records assigned to them
    when there is at least one, and no row otherwise. *)
Theorem C5_open_load_by_assignee (product : string) (timestamp : Z)
    (bugs : list Bug) (db : QuestDB.t) :
  (forall bug, is_open bug = true <-> status bug <> "RESOLVED")
  /\ (forall i co a p w fl, is_open (mkBug i "resolved" co a p w fl) = true)
  /\ rows_of Assigned (aggregate product timestamp bugs db)
     = rows_of Assigned db
       ++ group_rows Assigned product timestamp
            (group_bugs_by_assignee (filter is_open bugs))
  /\ (forall a,
        filter (fun r => String.eqb (row_key r) a)
          (group_rows Assigned product timestamp
             (group_bugs_by_assignee (filter is_open bugs)))
        = if Nat.eqb (open_load a bugs) 0 then []
          else [mkRow Assigned product a (open_load a bugs) timestamp]).
Proof.
  split; [apply is_open_iff|]. split; [reflexivity|]. split.
  - now rewrite rows_of_aggregate, rows_of_metrics_Assigned.
  - intros a. rewrite group_rows_of_key by apply keys_group_bugs_by.
    destruct (get_open_load a bugs) as [-> <-].
    now destruct (filter (has_attr assigned_to a) (filter is_open bugs)).
Qed.

Lemma slice_to_short n s :
  String.length s <= n -> PyStr.slice_to n s = s.
Proof.
  revert s. induction n as [|n IH]; intros [|c s] H; simpl in *;
    try reflexivity; try lia.
  f_equal. apply IH. lia.
Qed.

Lemma prio_of_short (bug : Bug) :
  String.length (priority bug) < 2 -> String.length (prio_of bug) < 2.
Proof.
  intros H. unfold prio_of. rewrite length_lower, length_slice_to. lia.
Qed.

Lemma prio_count_skip k bug before after :
  prio_of bug <> k ->
  prio_count k (before ++ bug :: after) = prio_count k (before ++ after).
Proof.
  intros Hne. unfold prio_count. rewrite !filter_app. cbn [filter].
  apply String.eqb_neq in Hne. now rewrite Hne.
Qed.

(** C7. For a record whose priority has fewer than two characters, the
    empty priority included, the key is computed all the same: the slice is
    the whole priority, lower-cased.  The key is none of [p1], [p2], [p3],
    and the record changes nothing in the priority rows of a pass, wherever
    it stands among the records. *)
Theorem C7_short_priority_is_excluded (bug : Bug)
    (Hshort : String.length (priority bug) < 2) :
  prio_of bug = PyStr.lower (priority bug)
  /\ prio_of bug <> "p1" /\ prio_of bug <> "p2" /\ prio_of bug <> "p3"
  /\ forall product timestamp before after db,
       rows_of Priority
         (aggregate product timestamp (before ++ bug :: after) db)
       = rows_of Priority (aggregate product timestamp (before ++ after) db).
Proof.
  pose proof (prio_of_short bug Hshort) as Hlen.
  assert (H1 : prio_of bug <> "p1") by (intros E; rewrite E in Hlen; simpl in Hlen; lia).
  assert (H2 : prio_of bug <> "p2") by (intros E; rewrite E in Hlen; simpl in Hlen; lia).
  assert (H3 : prio_of bug <> "p3") by (intros E; rewrite E in Hlen; simpl in Hlen; lia).
  repeat split; try assumption.
  - unfold prio_of. rewrite slice_to_short by lia. reflexivity.
  - intros product timestamp before after db.
    rewrite !rows_of_aggregate, !rows_of_metrics_Priority.
    now rewrite !prio_count_skip by assumption.
Qed.

Lemma C7_short_priority_witness :
  String.length (priority short_priority_bug) < 2
  /\ prio_of short_priority_bug = PyStr.lower (priority short_priority_bug)
  /\ prio_of short_priority_bug <> "p1"
  /\ prio_of short_priority_bug <> "p2"
  /\ prio_of short_priority_bug <> "p3"
  /\ forall product timestamp before after db,
       rows_of Priority
         (aggregate product timestamp (before ++ short_priority_bug :: after) db)
       = rows_of Priority (aggregate product timestamp (before ++ after) db).
Proof.
  split; [simpl; lia|].
  apply (C7_short_priority_is_excluded short_priority_bug). simpl. lia.
Defined.

(** C8. One pass leaves the records as it found them and appends to the
    database the rows [metrics], which are computed from the product, the
    timestamp and the records alone, whatever the database holds.  Hence a
    second pass over the same records writes the same rows again, table by
    table. *)
Theorem C8_aggregation_is_repeatable (product : string) (timestamp : Z)
    (p : Pass) :
  let once := run_pass product timestamp p in
  let twice := run_pass product timestamp once in
  pass_bugs once = pass_bugs p
  /\ pass_bugs twice = pass_bugs p
  /\ pass_db once = pass_db p ++ metrics product timestamp (pass_bugs p)
  /\ pass_db twice = pass_db once ++ metrics product timestamp (pass_bugs p)
  /\ forall db db',
       skipn (List.length db) (aggregate product timestamp (pass_bugs p) db)
       = skipn (List.length db')
           (aggregate product timestamp (pass_bugs p) db').
Proof.
  cbv zeta. unfold run_pass. simpl. repeat split.
  - apply aggregate_metrics.
  - now rewrite !aggregate_metrics.
  - intros db db'. rewrite !aggregate_metrics, !skipn_app, !skipn_all.
    now rewrite !Nat.sub_diag.
Qed.

(** C9. In the rows of the four grouped tables (status, component, L3 by
    status, open bugs by assignee) every count is at least 1; a zero can
    only be written to the L3 cases and the priority table, which it is for
    a product without records. *)
Theorem C9_group_counts_are_positive (product : string) (timestamp : Z)
    (bugs : list Bug) :
  Forall (fun r => 1 <= row_count r)
    (rows_of Status (aggregate product timestamp bugs [])
     ++ rows_of Component (aggregate product timestamp bugs [])
     ++ rows_of L3 (aggregate product timestamp bugs [])
     ++ rows_of Assigned (aggregate product timestamp bugs []))
  /\ map row_count
       (rows_of L3Cases (aggregate product timestamp [] [])
        ++ rows_of Priority (aggregate product timestamp [] []))
     = [0; 0; 0; 0; 0].
Proof.
  split; [|reflexivity].
  rewrite !rows_of_aggregate, rows_of_metrics_Status,
    rows_of_metrics_Component, rows_of_metrics_L3, rows_of_metrics_Assigned.
  simpl. repeat (apply Forall_app; split); apply group_rows_positive.
Qed.

(** ** Cycle driver *)

Lemma stamped_group_rows tb product timestamp d :
  stamped timestamp (group_rows tb product timestamp d).
Proof.
  apply Forall_forall. intros r Hr. unfold group_rows in Hr.
  apply in_map_iff in Hr as (entry & <- & _). reflexivity.
Qed.

Lemma stamped_metrics product timestamp bugs :
  stamped timestamp (metrics product timestamp bugs).
Proof.
  unfold metrics, stamped.
  repeat (apply Forall_app; split);
    try apply stamped_group_rows; repeat constructor.
Qed.

Section MainFacts.
Variable products : list string.
Variable get_bugs_for_product : string -> bool -> Z -> list Bug.
Variable options : Options.

Let for_products' := for_products products get_bugs_for_product options.
Let cycle' := cycle products get_bugs_for_product options.
Let while_true' := while_true products get_bugs_for_product options.
Let main' := main products get_bugs_for_product options.

Lemma for_products_stamped timestamp w :
  exists rows,
    questdb (for_products' timestamp w) = questdb w ++ rows
    /\ stamped timestamp rows.
Proof.
  unfold for_products', for_products. revert w.
  induction products as [|product ps IH]; intros w; simpl.
  - exists []. split; [now rewrite app_nil_r | constructor].
  - match goal with |- context [fold_left _ ps ?w1] =>
      destruct (IH w1) as (rows & -> & Hrows) end.
    simpl. rewrite aggregate_metrics, <- app_assoc.
    eexists. split; [reflexivity|].
    apply Forall_app. split; [apply stamped_metrics | exact Hrows].
Qed.

Lemma while_true_stamped n timestamp w :
  exists rows,
    questdb (while_true' n timestamp w) = questdb w ++ rows
    /\ stamped timestamp rows.
Proof.
  unfold while_true'. revert w. induction n as [|n IH]; intros w; simpl.
  - exists []. split; [now rewrite app_nil_r | constructor].
  - destruct (IH (cycle products get_bugs_for_product options timestamp w))
      as (rows & -> & Hrows).
    unfold cycle, time_sleep. simpl.
    destruct (for_products_stamped timestamp w) as (rows0 & E & Hrows0).
    unfold for_products' in E. rewrite E, <- app_assoc.
    eexists. split; [reflexivity|].
    apply Forall_app. split; assumption.
Qed.

(** Every row [main] writes, in whichever round, carries the time at
    which [main] was started. *)
Lemma main_stamped n w :
  exists rows,
    questdb (main' n w) = questdb w ++ rows /\ stamped (clock w) rows.
Proof. apply while_true_stamped. Qed.
End MainFacts.

(** C1. In the run [demo_main] the first round starts at second 1000 and
    the second round at second 1060; the rows written during the second
    round are there and all of them carry 1000, the time read before the
    loop, not the time at which their round started. *)
Theorem C1_second_round_reuses_start_time :
  clock (demo_main 0) = 1000%Z
  /\ clock (demo_main 1) = 1060%Z
  /\ List.length (demo_rows_of_round 1) = 9
  /\ stamped 1000 (demo_rows_of_round 1)
  /\ ~ stamped (clock (demo_main 1)) (demo_rows_of_round 1).
Proof.
  split; [reflexivity|]. split; [reflexivity|]. split; [reflexivity|]. split.
  - vm_compute. repeat constructor.
  - vm_compute. intros H. inversion H as [|r rows Hr _]. discriminate Hr.
Qed.

(** * Further properties *)

(** ** Order of the keys *)

Lemma mem_keys {V} k (d : Dict.t V) :
  Dict.mem k d = existsb (fun k' => String.eqb k' k) (Dict.keys d).
Proof.
  unfold Dict.mem. induction d as [|[k0 v0] d IH]; simpl; [reflexivity|].
  destruct (String.eqb k0 k); [reflexivity | exact IH].
Qed.

Lemma keys_group_step_eq attr (d : Dict.t (list Bug)) bug :
  Dict.keys (group_step attr d bug)
  = if Dict.mem (attr bug) d then Dict.keys d else Dict.keys d ++ [attr bug].
Proof.
  unfold group_step. rewrite keys_update. unfold Dict.mem.
  destruct (Dict.get (attr bug) d) eqn:E; simpl; [reflexivity|].
  rewrite set_absent by assumption. unfold Dict.keys. now rewrite map_app.
Qed.

Lemma filter_filter {A} (f g : A -> bool) (l : list A) :
  filter f (filter g l) = filter (fun x => g x && f x) l.
Proof.
  induction l as [|x l IH]; simpl; [reflexivity|].
  destruct (g x); simpl; [destruct (f x); now rewrite IH | exact IH].
Qed.

(** The keys after the loop has run over [bugs] from the dictionary [d]:
    those of [d], then the new ones as they first occur. *)
Lemma keys_fold_group_step attr bugs (d : Dict.t (list Bug)) :
  Dict.keys (fold_left (group_step attr) bugs d)
  = Dict.keys d
    ++ filter (fun k => negb (existsb (fun k' => String.eqb k' k) (Dict.keys d)))
         (first_seen (map attr bugs)).
Proof.
  revert d. induction bugs as [|bug bugs IH]; intros d; simpl.
  - now rewrite app_nil_r.
  - rewrite IH, keys_group_step_eq, mem_keys.
    destruct (existsb (fun k' => String.eqb k' (attr bug)) (Dict.keys d)) eqn:E;
      simpl.
    + f_equal. rewrite filter_filter. apply filter_ext_in. intros k _.
      destruct (String.eqb_spec k (attr bug)) as [->|Hne]; simpl.
      * now rewrite E.
      * reflexivity.
    + rewrite <- app_assoc. simpl. do 2 f_equal.
      rewrite filter_filter. apply filter_ext. intros k.
      rewrite existsb_app. simpl. rewrite orb_false_r, negb_orb.
      rewrite (String.eqb_sym (attr bug) k). apply andb_comm.
Qed.

Lemma keys_group_bugs_by_first_seen attr bugs :
  Dict.keys (group_bugs_by attr bugs) = first_seen (map attr bugs).
Proof.
  unfold group_bugs_by. rewrite keys_fold_group_step. simpl.
  induction (first_seen (map attr bugs)) as [|k l IH]; simpl; congruence.
Qed.

(** X1. The keys of the dictionary a grouping function returns are the
    distinct values of its attribute among the records, each once, in the
    order in which they first occur. *)
Theorem group_keys_in_order_of_first_occurrence (bugs : list Bug) :
  Dict.keys (group_bugs_by_status bugs) = first_seen (map status bugs)
  /\ Dict.keys (group_bugs_by_component bugs)
     = first_seen (map component bugs)
  /\ Dict.keys (group_bugs_by_assignee bugs)
     = first_seen (map assigned_to bugs).
Proof. repeat split; apply keys_group_bugs_by_first_seen. Qed.

Lemma row_key_group_rows tb product timestamp (d : Dict.t (list Bug)) :
  map row_key (group_rows tb product timestamp d) = Dict.keys d.
Proof.
  unfold group_rows, Dict.items, Dict.keys. rewrite map_map. reflexivity.
Qed.

(** X2. The rows of the four grouped tables are written in the order in
    which their keys first occur among the records the table is computed
    from: all records for status and component, the escalations for L3, the
    records that are not [RESOLVED] for the open load. *)
Theorem rows_in_order_of_first_occurrence (product : string) (timestamp : Z)
    (bugs : list Bug) :
  map row_key (rows_of Status (aggregate product timestamp bugs []))
  = first_seen (map status bugs)
  /\ map row_key (rows_of Component (aggregate product timestamp bugs []))
     = first_seen (map component bugs)
  /\ map row_key (rows_of L3 (aggregate product timestamp bugs []))
     = first_seen (map status (filter is_l3 bugs))
  /\ map row_key (rows_of Assigned (aggregate product timestamp bugs []))
     = first_seen (map assigned_to (filter is_open bugs)).
Proof.
  rewrite !rows_of_aggregate, rows_of_metrics_Status,
    rows_of_metrics_Component, rows_of_metrics_L3, rows_of_metrics_Assigned.
  simpl. rewrite !row_key_group_rows.
  repeat split; apply keys_group_bugs_by_first_seen.
Qed.

(** ** Keys and totals of a pass *)

(** X3. One pass writes no two rows with the same key to the same table. *)
Theorem pass_keys_unique_per_table (tb : table) (product : string)
    (timestamp : Z) (bugs : list Bug) :
  NoDup (map row_key (rows_of tb (aggregate product timestamp bugs []))).
Proof.
  rewrite rows_of_aggregate. simpl. destruct tb.
  - rewrite rows_of_metrics_Status, row_key_group_rows.
    apply keys_group_bugs_by.
  - rewrite rows_of_metrics_Component, row_key_group_rows.
    apply keys_group_bugs_by.
  - rewrite rows_of_metrics_L3, row_key_group_rows. apply keys_group_bugs_by.
  - rewrite rows_of_metrics_L3Cases. simpl.
    repeat constructor; simpl; intuition discriminate.
  - rewrite rows_of_metrics_Priority. simpl.
    repeat constructor; simpl; intuition discriminate.
  - rewrite rows_of_metrics_Assigned, row_key_group_rows.
    apply keys_group_bugs_by.
Qed.

Lemma count_total_group_rows tb product timestamp (d : Dict.t (list Bug)) :
  count_total (group_rows tb product timestamp d) = bucket_total d.
Proof.
  unfold count_total, group_rows, bucket_total. now rewrite map_map.
Qed.

(** X4. The counts of a pass add up: over the status rows and over the
    component rows to the number of records, over the L3 rows to the number
    of escalations, over the open-load rows to the number of records whose
    status is not [RESOLVED]. *)
Theorem pass_table_totals (product : string) (timestamp : Z)
    (bugs : list Bug) :
  count_total (rows_of Status (aggregate product timestamp bugs []))
  = List.length bugs
  /\ count_total (rows_of Component (aggregate product timestamp bugs []))
     = List.length bugs
  /\ count_total (rows_of L3 (aggregate product timestamp bugs []))
     = List.length (filter is_l3 bugs)
  /\ count_total (rows_of Assigned (aggregate product timestamp bugs []))
     = List.length (filter is_open bugs).
Proof.
  rewrite !rows_of_aggregate, rows_of_metrics_Status,
    rows_of_metrics_Component, rows_of_metrics_L3, rows_of_metrics_Assigned.
  simpl. rewrite !count_total_group_rows.
  repeat split; apply bucket_total_group_bugs_by.
Qed.

Lemma length_filter_le {A} (f : A -> bool) (l : list A) :
  List.length (filter f l) <= List.length l.
Proof.
  induction l as [|x l IH]; simpl; [lia|]. destruct (f x); simpl; lia.
Qed.

Lemma filter_comm {A} (f g : A -> bool) (l : list A) :
  filter f (filter g l) = filter g (filter f l).
Proof.
  rewrite !filter_filter. apply filter_ext. intros x. apply andb_comm.
Qed.

(** X5. Every L3 row has a status row beside it, written by the same pass
    under the same key, and its count is at most the count of that row. *)
Theorem l3_rows_below_status_rows (product : string) (timestamp : Z)
    (bugs : list Bug) :
  Forall
    (fun r =>
       exists r',
         In r' (rows_of Status (aggregate product timestamp bugs []))
         /\ row_key r' = row_key r /\ row_count r <= row_count r')
    (rows_of L3 (aggregate product timestamp bugs [])).
Proof.
  rewrite !rows_of_aggregate, rows_of_metrics_Status, rows_of_metrics_L3.
  simpl. apply Forall_forall. intros r Hr. unfold group_rows in Hr.
  apply in_map_iff in Hr as ([k bucket] & <- & Hin). simpl.
  apply In_group_bugs_by in Hin as [-> Hne].
  rewrite filter_comm in Hne |- *.
  exists (mkRow Status product k
            (List.length (filter (has_attr status k) bugs)) timestamp).
  simpl. split; [|split; [reflexivity | apply length_filter_le]].
  unfold group_rows. apply in_map_iff.
  exists (k, filter (has_attr status k) bugs). split; [reflexivity|].
  apply In_group_bugs_by. split; [reflexivity|].
  intros E. rewrite E in Hne. now apply Hne.
Qed.

(** ** Priority keys *)

Lemma prio_bucket_exclusive k :
  (if String.eqb k "p1" then 1 else 0) + (if String.eqb k "p2" then 1 else 0)
  + (if String.eqb k "p3" then 1 else 0)
  = if is_prio_key k then 1 else 0.
Proof.
  unfold is_prio_key.
  destruct (String.eqb_spec k "p1") as [->|]; [reflexivity|].
  destruct (String.eqb_spec k "p2") as [->|]; [reflexivity|].
  now destruct (String.eqb_spec k "p3").
Qed.

Lemma prio_count_sum bugs :
  prio_count "p1" bugs + prio_count "p2" bugs + prio_count "p3" bugs
  = List.length (filter (fun bug => is_prio_key (prio_of bug)) bugs).
Proof.
  induction bugs as [|bug bugs IH]; [reflexivity|].
  rewrite !prio_count_cons. cbn [filter].
  pose proof (prio_bucket_exclusive (prio_of bug)) as H.
  destruct (is_prio_key (prio_of bug)); simpl; lia.
Qed.

(** X6. The three priority counts of a pass add up to the number of
    records whose key is one of the buckets: no record is counted twice,
    and the sum never exceeds the number of records. *)
Theorem priority_counts_total (product : string) (timestamp : Z)
    (bugs : list Bug) :
  count_total (rows_of Priority (aggregate product timestamp bugs []))
  = List.length (filter (fun bug => is_prio_key (prio_of bug)) bugs)
  /\ count_total (rows_of Priority (aggregate product timestamp bugs []))
     <= List.length bugs.
Proof.
  rewrite rows_of_aggregate, rows_of_metrics_Priority.
  unfold count_total. simpl. rewrite Nat.add_0_r, Nat.add_assoc.
  rewrite prio_count_sum. split; [reflexivity | apply length_filter_le].
Qed.

Lemma lower_ascii_p c :
  PyStr.lower_ascii c = "p"%char -> c = "p"%char \/ c = "P"%char.
Proof.
  destruct c as [[] [] [] [] [] [] [] []]; vm_compute; intros H;
    try discriminate H; auto.
Qed.

Lemma lower_ascii_digit c d :
  d = "1"%char \/ d = "2"%char \/ d = "3"%char ->
  PyStr.lower_ascii c = d -> c = d.
Proof.
  intros [-> | [-> | ->]];
    destruct c as [[] [] [] [] [] [] [] []]; vm_compute; intros H;
    try discriminate H; reflexivity.
Qed.

Lemma prio_of_bucket (bug : Bug) (d : ascii) :
  d = "1"%char \/ d = "2"%char \/ d = "3"%char ->
  prio_of bug = String "p" (String d "") <->
  PyStr.startswith (String "p" (String d "")) (priority bug) = true
  \/ PyStr.startswith (String "P" (String d "")) (priority bug) = true.
Proof.
  intros Hd. unfold prio_of. split.
  - destruct (priority bug) as [|c1 [|c2 rest]]; intros H;
      cbn [PyStr.lower PyStr.slice_to] in H; try discriminate H.
    injection H as H1 H2.
    apply (lower_ascii_digit _ _ Hd) in H2. subst c2.
    apply lower_ascii_p in H1 as [-> | ->]; [left | right];
      apply startswith_app; now exists rest.
  - intros [H|H]; apply startswith_app in H as [post ->];
      destruct Hd as [-> | [-> | ->]]; reflexivity.
Qed.

(** X7. The priority key of a record is [p1] exactly when its priority
    starts with [p1] or [P1], and likewise for [p2] and [p3]: the bucket
    depends on the first two characters only, whatever their case. *)
Theorem priority_key_is_case_blind_prefix (bug : Bug) :
  (prio_of bug = "p1" <->
   PyStr.startswith "p1" (priority bug) = true
   \/ PyStr.startswith "P1" (priority bug) = true)
  /\ (prio_of bug = "p2" <->
      PyStr.startswith "p2" (priority bug) = true
      \/ PyStr.startswith "P2" (priority bug) = true)
  /\ (prio_of bug = "p3" <->
      PyStr.startswith "p3" (priority bug) = true
      \/ PyStr.startswith "P3" (priority bug) = true).
Proof.
  repeat split; apply (prio_of_bucket bug); auto.
Qed.

(** ** Escalations and their cases *)

Lemma contains_occurrences sub s :
  PyStr.contains sub s = true <-> 1 <= PyStr.occurrences sub s.
Proof.
  induction s as [|c s IH]; rewrite contains_unfold.
  - change (PyStr.occurrences sub "")
      with ((if PyStr.startswith sub "" then 1 else 0) + 0).
    destruct (PyStr.startswith sub ""); simpl; split; intros H;
      try discriminate H; try lia; reflexivity.
  - rewrite occurrences_unfold, orb_true_iff, IH.
    destruct (PyStr.startswith sub (String c s)); simpl; split;
      try lia; try tauto.
Qed.

Lemma is_l3_counts (bug : Bug) :
  is_l3 bug = true <->
  1 <= PyStr.count "openL3:" (whiteboard bug)
       + PyStr.count "wasL3:" (whiteboard bug).
Proof.
  unfold is_l3. rewrite orb_true_iff, !contains_occurrences.
  rewrite count_openL3, count_wasL3. lia.
Qed.

(** X8. A record is an escalation exactly when its whiteboard counts at
    least one [openL3:] or [wasL3:]: [is_l3] and the two [count] calls of
    the case loop agree on which records matter. *)
Theorem is_l3_iff_some_case (bug : Bug) :
  is_l3 bug = true <->
  1 <= PyStr.count "openL3:" (whiteboard bug)
       + PyStr.count "wasL3:" (whiteboard bug).
Proof. apply is_l3_counts. Qed.

Lemma marker_total_filter_is_l3 marker bugs :
  marker = "openL3:" \/ marker = "wasL3:" ->
  marker_total marker (filter is_l3 bugs) = marker_total marker bugs.
Proof.
  intros Hm. unfold marker_total.
  induction bugs as [|bug bugs IH]; [reflexivity|]. cbn [filter].
  destruct (is_l3 bug) eqn:E; simpl; [now rewrite IH|].
  rewrite IH. unfold is_l3 in E. apply orb_false_iff in E as [E1 E2].
  assert (H : PyStr.occurrences marker (whiteboard bug) = 0).
  { destruct Hm as [-> | ->].
    - destruct (PyStr.occurrences "openL3:" (whiteboard bug)) eqn:O;
        [reflexivity|].
      assert (C : PyStr.contains "openL3:" (whiteboard bug) = true)
        by (apply contains_occurrences; lia).
      congruence.
    - destruct (PyStr.occurrences "wasL3:" (whiteboard bug)) eqn:O;
        [reflexivity|].
      assert (C : PyStr.contains "wasL3:" (whiteboard bug) = true)
        by (apply contains_occurrences; lia).
      congruence. }
  now rewrite H.
Qed.

Lemma escalations_le_cases bugs :
  List.length (filter is_l3 bugs)
  <= marker_total "openL3:" bugs + marker_total "wasL3:" bugs.
Proof.
  unfold marker_total. induction bugs as [|bug bugs IH]; [simpl; lia|].
  cbn [filter map list_sum].
  destruct (is_l3 bug) eqn:E; simpl.
  - apply is_l3_counts in E. rewrite count_openL3, count_wasL3 in E.
    lia.
  - lia.
Qed.

(** X9. The two case counts of a pass are the marker occurrences over all
    records of the product: restricting the loop to the escalations drops
    only records that count nothing.  Together the two counts are at least
    the number of escalations, which is what the L3 rows add up to. *)
Theorem l3_cases_cover_escalations (product : string) (timestamp : Z)
    (bugs : list Bug) :
  rows_of L3Cases (aggregate product timestamp bugs [])
  = [mkRow L3Cases product "open" (marker_total "openL3:" bugs) timestamp;
     mkRow L3Cases product "closed" (marker_total "wasL3:" bugs) timestamp]
  /\ count_total (rows_of L3 (aggregate product timestamp bugs []))
     <= count_total (rows_of L3Cases (aggregate product timestamp bugs [])).
Proof.
  rewrite !rows_of_aggregate, rows_of_metrics_L3Cases, rows_of_metrics_L3.
  simpl. rewrite !marker_total_filter_is_l3 by auto. split; [reflexivity|].
  unfold group_bugs_by_status.
  rewrite count_total_group_rows, bucket_total_group_bugs_by.
  unfold count_total. simpl. rewrite Nat.add_0_r. apply escalations_le_cases.
Qed.

(** ** What a pass writes *)

Lemma labelled_group_rows tb product timestamp (d : Dict.t (list Bug)) :
  Forall (fun r => row_product r = product /\ row_timestamp r = timestamp)
    (group_rows tb product timestamp d).
Proof.
  apply Forall_forall. intros r Hr. unfold group_rows in Hr.
  apply in_map_iff in Hr as (entry & <- & _). now split.
Qed.

(** X10. Every row a pass writes names the product of the pass and carries
    the timestamp the pass was given. *)
Theorem pass_rows_carry_product_and_timestamp (product : string)
    (timestamp : Z) (bugs : list Bug) :
  Forall (fun r => row_product r = product /\ row_timestamp r = timestamp)
    (aggregate product timestamp bugs []).
Proof.
  rewrite aggregate_metrics. simpl. unfold metrics.
  repeat (apply Forall_app; split);
    try apply labelled_group_rows; repeat constructor.
Qed.

(** ** The order of the records *)

Lemma perm_length_filter {A} (f : A -> bool) (l l' : list A) :
  Permutation l l' -> List.length (filter f l) = List.length (filter f l').
Proof.
  induction 1 as [|x l l' _ IH|x y l|l l' l'' _ IH1 _ IH2]; simpl.
  - reflexivity.
  - destruct (f x); simpl; now rewrite IH.
  - destruct (f x), (f y); reflexivity.
  - now rewrite IH1.
Qed.

Lemma perm_marker_total marker (l l' : list Bug) :
  Permutation l l' -> marker_total marker l = marker_total marker l'.
Proof.
  unfold marker_total.
  induction 1 as [|x l l' _ IH|x y l|l l' l'' _ IH1 _ IH2]; simpl; lia.
Qed.

(** The rows of a grouping under one key, from the length of its bucket. *)
Lemma group_rows_at tb product timestamp attr (l : list Bug) k :
  filter (fun r => String.eqb (row_key r) k)
    (group_rows tb product timestamp (group_bugs_by attr l))
  = match List.length (filter (has_attr attr k) l) with
    | O => []
    | S n => [mkRow tb product k (S n) timestamp]
    end.
Proof.
  rewrite group_rows_of_key by apply keys_group_bugs_by.
  rewrite get_group_bugs_by.
  now destruct (filter (has_attr attr k) l).
Qed.

(** X11. The counts of a pass do not depend on the order in which the
    tracker returns the records: for two orders of the same records, each
    table gets the same rows under each key. *)
Theorem pass_counts_ignore_record_order (product : string) (timestamp : Z)
    (bugs bugs' : list Bug) (Hperm : Permutation bugs bugs')
    (tb : table) (k : string) :
  rows_at tb k (aggregate product timestamp bugs [])
  = rows_at tb k (aggregate product timestamp bugs' []).
Proof.
  unfold rows_at. rewrite !rows_of_aggregate. simpl. destruct tb.
  - rewrite !rows_of_metrics_Status. unfold group_bugs_by_status.
    rewrite !group_rows_at.
    now rewrite (perm_length_filter _ _ _ Hperm).
  - rewrite !rows_of_metrics_Component. unfold group_bugs_by_component.
    rewrite !group_rows_at.
    now rewrite (perm_length_filter _ _ _ Hperm).
  - rewrite !rows_of_metrics_L3. unfold group_bugs_by_status.
    rewrite !group_rows_at, !length_filter_filter.
    now rewrite (perm_length_filter _ _ _ Hperm).
  - rewrite !rows_of_metrics_L3Cases.
    rewrite !marker_total_filter_is_l3 by auto.
    now rewrite (perm_marker_total "openL3:" _ _ Hperm),
      (perm_marker_total "wasL3:" _ _ Hperm).
  - rewrite !rows_of_metrics_Priority. unfold prio_count.
    now rewrite (perm_length_filter (fun bug => String.eqb (prio_of bug) "p1") _ _ Hperm),
      (perm_length_filter (fun bug => String.eqb (prio_of bug) "p2") _ _ Hperm),
      (perm_length_filter (fun bug => String.eqb (prio_of bug) "p3") _ _ Hperm).
  - rewrite !rows_of_metrics_Assigned. unfold group_bugs_by_assignee.
    rewrite !group_rows_at, !length_filter_filter.
    now rewrite (perm_length_filter _ _ _ Hperm).
Qed.

Lemma pass_counts_ignore_record_order_witness :
  Permutation [demo_bug; short_priority_bug] [short_priority_bug; demo_bug]
  /\ rows_at Status "NEW"
       (aggregate "X" 0 [demo_bug; short_priority_bug] [])
     = rows_at Status "NEW"
         (aggregate "X" 0 [short_priority_bug; demo_bug] []).
Proof.
  split; [apply perm_swap|].
  apply (pass_counts_ignore_record_order "X" 0
           [demo_bug; short_priority_bug] [short_priority_bug; demo_bug]).
  apply perm_swap.
Defined.

(** ** Rounds *)

Section RoundFacts.
Variable products : list string.
Variable get_bugs_for_product : string -> bool -> Z -> list Bug.
Variable options : Options.

Lemma aggregate_on_empty product timestamp bugs db :
  aggregate product timestamp bugs db
  = db ++ aggregate product timestamp bugs [].
Proof. now rewrite !aggregate_metrics. Qed.

Lemma for_products_from ps timestamp w :
  questdb (for_products ps get_bugs_for_product options timestamp w)
  = questdb w
    ++ round_rows ps get_bugs_for_product options timestamp (clock w)
  /\ clock (for_products ps get_bugs_for_product options timestamp w)
     = clock w.
Proof.
  unfold for_products, round_rows. revert w.
  induction ps as [|product ps IH]; intros w; simpl.
  - split; [now rewrite app_nil_r | reflexivity].
  - match goal with |- context [fold_left _ ps ?w1] =>
      destruct (IH w1) as [-> ->] end.
    simpl. split; [|reflexivity].
    rewrite aggregate_on_empty, <- app_assoc. reflexivity.
Qed.

(** X12. One round reports the products in the configured order, each
    product completely before the next, from what the tracker returns for
    it with [--use-cache] passed on ([False] when not given); the round
    appends these rows to the database and leaves the clock to the sleep. *)
Theorem for_products_in_configured_order (timestamp : Z) (w : World) :
  questdb (for_products products get_bugs_for_product options timestamp w)
  = questdb w
    ++ round_rows products get_bugs_for_product options timestamp (clock w)
  /\ clock (for_products products get_bugs_for_product options timestamp w)
     = clock w.
Proof. apply for_products_from. Qed.

Lemma cycle_from timestamp w :
  questdb (cycle products get_bugs_for_product options timestamp w)
  = questdb w
    ++ round_rows products get_bugs_for_product options timestamp (clock w)
  /\ clock (cycle products get_bugs_for_product options timestamp w)
     = (clock w + Z.of_nat (interval_seconds options))%Z.
Proof.
  unfold cycle, time_sleep. simpl.
  destruct (for_products_from products timestamp w) as [-> ->].
  split; reflexivity.
Qed.

Lemma flat_map_seq_S {A} (f : nat -> list A) n :
  flat_map f (seq 0 (S n)) = f 0 ++ flat_map (fun i => f (S i)) (seq 0 n).
Proof.
  simpl. f_equal. rewrite <- seq_shift.
  induction (seq 0 n) as [|i l IH]; simpl; [reflexivity | now rewrite IH].
Qed.

Lemma while_true_from n timestamp w :
  questdb (while_true products get_bugs_for_product options n timestamp w)
  = questdb w
    ++ flat_map
         (fun i =>
            round_rows products get_bugs_for_product options timestamp
              (clock w + Z.of_nat (i * interval_seconds options)))
         (seq 0 n)
  /\ clock (while_true products get_bugs_for_product options n timestamp w)
     = (clock w + Z.of_nat (n * interval_seconds options))%Z.
Proof.
  revert w. induction n as [|n IH]; intros w.
  - simpl. split; [now rewrite app_nil_r | lia].
  - cbn [while_true].
    destruct (IH (cycle products get_bugs_for_product options timestamp w))
      as [-> ->].
    destruct (cycle_from timestamp w) as [-> ->].
    split.
    + rewrite flat_map_seq_S, <- app_assoc. do 2 f_equal.
      * f_equal. simpl. lia.
      * apply flat_map_ext. intros i. f_equal. lia.
    + lia.
Qed.

(** X13. After [n] rounds the database holds what it held at the start
    and then the rows of the rounds in turn.  Round [i] (from 0) fetches
    after [i] sleeps and stamps its rows with the time at which [main]
    was started. *)
Theorem main_rounds (n : nat) (w : World) :
  questdb (main products get_bugs_for_product options n w)
  = questdb w
    ++ flat_map
         (fun i =>
            round_rows products get_bugs_for_product options (clock w)
              (clock w + Z.of_nat (i * interval_seconds options)))
         (seq 0 n).
Proof. unfold main, datetime_now. apply while_true_from. Qed.

End RoundFacts.

(** X15. Whatever the number of rounds, [main] only appends to the
    database, and every row it appends carries the time at which [main]
    was started. *)
Theorem main_rows_carry_start_time (products : list string)
    (get_bugs_for_product : string -> bool -> Z -> list Bug)
    (options : Options) (n : nat) (w : World) :
  exists rows,
    questdb (main products get_bugs_for_product options n w)
    = questdb w ++ rows
    /\ stamped (clock w) rows.
Proof. unfold main, datetime_now. apply while_true_stamped. Qed.
